(** * flow/envs/straightroad_env.py: the I-210 single-agent environments

    A shallow embedding of [I210SingleEnv] and [SingleStraightRoad] and the
    properties of vehicle selection, observation construction, action
    application, reward and wave termination.

    Numbers.  Python floats and numpy [float64] values are modelled by exact
    rationals ([Q]) extended, where the code can produce them, with NaN and
    the two infinities ([Np.float64]); rounding is not modelled.  Equality of
    rationals is [==] ([Qeq]).

    Exceptions.  A function that can raise returns [option]; [None] is the
    raised exception ([IndexError], [ValueError]). *)

From Stdlib Require Import String List Bool Arith ZArith QArith Qabs.
From Stdlib Require Import Lia Lqa Permutation Sorted.
Import ListNotations.

Local Open Scope Q_scope.

(** ** The numpy functions the module calls *)

Module Np.

(** A [float64]: a finite value, an infinity or NaN. *)
Inductive float64 : Type :=
| Finite (q : Q)
| PosInf
| NegInf
| NaN.

(** The largest finite [float64], (2 - 2^-52) * 2^1023. *)
Definition float_max : Q :=
  inject_Z ((2 ^ 53 - 1) * 2 ^ 971).

(** [np.sum] of a short list: a left-to-right accumulation. *)
Definition sum (l : list Q) : Q := fold_left Qplus l 0.

(** [np.mean]: NaN (and a warning, no exception) on an empty list. *)
Definition mean (l : list Q) : float64 :=
  match l with
  | [] => NaN
  | _ :: _ => Finite (sum l / inject_Z (Z.of_nat (length l)))
  end.

(** [np.nan_to_num]: always a finite value. *)
Definition nan_to_num (x : float64) : Q :=
  match x with
  | Finite q => q
  | NaN => 0
  | PosInf => float_max
  | NegInf => - float_max
  end.

(** [a / b] on a numpy scalar [a]: a division by zero gives an infinity or
    NaN (and a warning), never an exception. *)
Definition true_divide (a b : Q) : float64 :=
  if Qeq_bool b 0 then
    if Qeq_bool a 0 then NaN
    else if Qle_bool 0 a then PosInf else NegInf
  else Finite (a / b).

(** [np.zeros(n)]. *)
Definition zeros (n : nat) : list Q := repeat 0 n.

(** [a[start:stop] = vals] on a one-dimensional array, for
    [0 <= start <= stop]: the slice is clipped to the array, and the
    assignment raises [ValueError] unless [vals] has as many entries as
    the clipped slice (or a single entry, which is broadcast). *)
Definition set_slice (a : list Q) (start stop : nat) (vals : list Q)
  : option (list Q) :=
  let lo := Nat.min start (length a) in
  let hi := Nat.min stop (length a) in
  let n := (hi - lo)%nat in
  if Nat.eqb (length vals) n then
    Some (firstn lo a ++ vals ++ skipn hi a)
  else
    match vals with
    | [v] => Some (firstn lo a ++ repeat v n ++ skipn hi a)
    | _ => None
    end.

End Np.

(** ** Module constants *)

Definition MAX_LANES : nat := 6.
Definition MAX_NUM_VEHS : nat := 8.
Definition SPEED_SCALE : Q := 50.
Definition HEADWAY_SCALE : Q := 1000.

(** ** The simulation kernel and the environment *)

Definition veh_id := string.
Bind Scope string_scope with veh_id.

(** What [self.k.vehicle] answers at one instant, and the actuation calls it
    has received.  A leader is Python's [None] ([None]), the empty string
    ([Some ""]) or an identifier. *)
Record VehicleKernel : Type := {
  get_rl_ids : list veh_id;
  get_ids : list veh_id;
  get_x_by_id : veh_id -> Q;
  get_speed : veh_id -> Q;
  get_leader : veh_id -> option veh_id;
  get_headway : veh_id -> Q;
  accelerations : list (list veh_id * list Q)
}.

(** [self.k.vehicle.apply_acceleration(veh_ids, acc)]: the call is recorded. *)
Definition apply_acceleration (kv : VehicleKernel)
  (veh_ids : list veh_id) (acc : list Q) : VehicleKernel :=
  {| get_rl_ids := get_rl_ids kv;
     get_ids := get_ids kv;
     get_x_by_id := get_x_by_id kv;
     get_speed := get_speed kv;
     get_leader := get_leader kv;
     get_headway := get_headway kv;
     accelerations := accelerations kv ++ [(veh_ids, acc)] |}.

(** [env_params.additional_params]. *)
Record AdditionalParams : Type := {
  max_accel : Q;
  max_decel : Q;
  terminate_on_wave : bool;
  wave_termination_horizon : Z;
  wave_termination_speed : Q;
  target_velocity : Q
}.

Record Env : Type := {
  k : VehicleKernel;
  additional_params : AdditionalParams;
  lead_obs : bool;
  max_lanes : nat;
  time_counter : Z
}.

Definition with_kernel (e : Env) (kv : VehicleKernel) : Env :=
  {| k := kv;
     additional_params := additional_params e;
     lead_obs := lead_obs e;
     max_lanes := max_lanes e;
     time_counter := time_counter e |}.

(** ** Vehicle selection *)

(** Python's [sorted(l, key=...)]: a stable sort, ascending in the key.  An
    element goes in front of the first element whose key is not smaller, so
    equal keys keep the order they had in [l]. *)
Fixpoint insert_by (key : veh_id -> Q) (a : veh_id) (l : list veh_id)
  : list veh_id :=
  match l with
  | [] => [a]
  | b :: l' =>
      if Qle_bool (key a) (key b) then a :: l else b :: insert_by key a l'
  end.

Definition sorted (l : list veh_id) (key : veh_id -> Q) : list veh_id :=
  fold_right (insert_by key) [] l.

(** [l[-n:]] for [n > 0]: the last [n] entries, all of [l] when it is
    shorter. *)
Definition last_n (n : nat) (l : list veh_id) : list veh_id :=
  skipn (length l - n) l.

Definition get_sorted_rl_ids (e : Env) : list veh_id :=
  let rl_ids := get_rl_ids (k e) in
  let rl_ids := rev (sorted rl_ids (fun veh => get_x_by_id (k e) veh)) in
  let rl_ids := last_n MAX_NUM_VEHS rl_ids in
  rl_ids.

(** ** Observation *)

(** [self.observation_space.shape[0]]. *)
Definition observation_space_shape (e : Env) : nat :=
  if lead_obs e then (3 * MAX_NUM_VEHS)%nat
  else
    let leading_obs := (3 * max_lanes e)%nat in
    let follow_obs := (3 * max_lanes e)%nat in
    let self_obs := 2%nat in
    (leading_obs + follow_obs + self_obs)%nat.

(** [lead_id in ["", None]]. *)
Definition no_leader (lead_id : option veh_id) : bool :=
  match lead_id with
  | None => true
  | Some s => String.eqb s ""
  end.

(** A leader that is not [None], as the identifier it is. *)
Definition the_id (lead_id : option veh_id) : veh_id :=
  match lead_id with
  | Some s => s
  | None => ""%string
  end.

(** The three values written for one vehicle. *)
Definition vehicle_obs (e : Env) (rl_id : veh_id) : list Q :=
  let speed := get_speed (k e) rl_id in
  let lead_id := get_leader (k e) rl_id in
  let '(lead_speed, headway) :=
    if no_leader lead_id then (SPEED_SCALE, HEADWAY_SCALE)
    else (get_speed (k e) (the_id lead_id), get_headway (k e) rl_id) in
  [speed / SPEED_SCALE; headway / HEADWAY_SCALE; lead_speed / SPEED_SCALE].

(** The loop [for i, rl_id in enumerate(rl_ids)] of [get_state], from
    index [i] on. *)
Fixpoint get_state_loop (e : Env) (per_vehicle_obs i : nat)
  (rl_ids : list veh_id) (veh_info : list Q) : option (list Q) :=
  match rl_ids with
  | [] => Some veh_info
  | rl_id :: rest =>
      match Np.set_slice veh_info (i * per_vehicle_obs)%nat
              ((i + 1) * per_vehicle_obs)%nat (vehicle_obs e rl_id) with
      | Some veh_info' => get_state_loop e per_vehicle_obs (S i) rest veh_info'
      | None => None
      end
  end.

Definition get_state (e : Env) : option (list Q) :=
  let rl_ids := get_sorted_rl_ids e in
  let veh_info := Np.zeros (observation_space_shape e) in
  let per_vehicle_obs := 3%nat in
  get_state_loop e per_vehicle_obs 0 rl_ids veh_info.

(** ** Action application *)

(** [self.action_space.shape[0]]. *)
Definition action_space_shape : nat := 1 * MAX_NUM_VEHS.

(** The loop of [_apply_rl_actions]: [rl_actions[i]] raises [IndexError]
    past the end of the action vector. *)
Fixpoint collect_accels (rl_actions : list Q) (i : nat)
  (rl_ids : list veh_id) (accels : list Q) (veh_ids : list veh_id)
  : option (list Q * list veh_id) :=
  match rl_ids with
  | [] => Some (accels, veh_ids)
  | rl_id :: rest =>
      match nth_error rl_actions i with
      | Some a =>
          collect_accels rl_actions (S i) rest (accels ++ [a])
            (veh_ids ++ [rl_id])
      | None => None
      end
  end.

(** [rl_actions] is [None] in the warm-up steps. *)
Definition _apply_rl_actions (e : Env) (rl_actions : option (list Q))
  : option Env :=
  match rl_actions with
  | Some actions =>
      let rl_ids := get_sorted_rl_ids e in
      match collect_accels actions 0 rl_ids [] [] with
      | Some (accels, veh_ids) =>
          Some (with_kernel e (apply_acceleration (k e) rl_ids accels))
      | None => None
      end
  | None => Some e
  end.

(** ** Reward *)

(** What [compute_reward] returns: the empty dict [{}] or a number. *)
Inductive reward : Type :=
| EmptyDict
| Reward (r : Np.float64).

Definition compute_reward (e : Env) (rl_actions : option (list Q)) : reward :=
  match rl_actions with
  | None => EmptyDict
  | Some _ =>
      let rl_ids := get_sorted_rl_ids e in
      let des_speed := target_velocity (additional_params e) in
      let rewards :=
        Np.true_divide
          (Np.nan_to_num
             (Np.mean
                (map (fun speed => (des_speed - Qabs (speed - des_speed)) ^ 2)
                   (map (get_speed (k e)) rl_ids))))
          (des_speed ^ 2) in
      Reward rewards
  end.

(** ** SingleStraightRoad.step *)

Definition Qlt_bool (a b : Q) : bool := negb (Qle_bool b a).

(** The mean speed [step] computes over all vehicles. *)
Definition mean_speed (e : Env) : Q :=
  Np.nan_to_num (Np.mean (map (get_speed (k e)) (get_ids (k e)))).

(** The condition under which [step] sets [done = True]. *)
Definition wave_detected (e : Env) : bool :=
  terminate_on_wave (additional_params e)
  && Qlt_bool (mean_speed e) (wave_termination_speed (additional_params e))
  && (wave_termination_horizon (additional_params e) <? time_counter e)%Z
  && (0 <? length (get_ids (k e)))%nat.

Section Step.

(** [Env.step] of the base class is not part of this module: it advances
    the simulator (and [time_counter]) and returns the observation, the
    reward, the done flag and the info dict. *)
Variable Info : Type.

Record StepResult : Type := {
  obs : option (list Q);
  rew : reward;
  done : bool;
  info : Info
}.

Variable super_step : Env -> option (list Q) -> Env * StepResult.

Definition step (e : Env) (rl_actions : option (list Q))
  : Env * StepResult :=
  let '(e', r) := super_step e rl_actions in
  let done' := if wave_detected e' then true else done r in
  (e', {| obs := obs r; rew := rew r; done := done'; info := info r |}).

End Step.

Arguments obs {Info} _.
Arguments rew {Info} _.
Arguments done {Info} _.
Arguments info {Info} _.
Arguments step {Info} _ _ _.

(** ** Notions the properties are stated with *)


(** The arithmetic mean of a list of rationals. *)
Definition average (l : list Q) : Q :=
  fold_right Qplus 0 l / inject_Z (Z.of_nat (length l)).


(** The orders of two vehicles by a key. *)
Definition ascending_by (key : veh_id -> Q) (a b : veh_id) : Prop :=
  key a <= key b.
Definition descending_by (key : veh_id -> Q) (a b : veh_id) : Prop :=
  key b <= key a.

(** A list of vehicles in descending position along the road. *)
Definition descending (e : Env) (l : list veh_id) : Prop :=
  StronglySorted (descending_by (get_x_by_id (k e))) l.

(** "Keeping only the closest to the front": no live controllable vehicle
    that was left out is ahead of one that was kept. *)
Definition keeps_closest_to_front (e : Env) (sel : list veh_id) : Prop :=
  forall d s,
    In d (get_rl_ids (k e)) -> ~ In d sel -> In s sel ->
    get_x_by_id (k e) d <= get_x_by_id (k e) s.






(** The per-vehicle quantity the code averages. *)
Definition closeness_sq (target speed : Q) : Q :=
  (target - Qabs (speed - target)) * (target - Qabs (speed - target)).

(** ** Example environments *)

(** One simulated vehicle. *)
Record vehicle : Type := {
  vid : veh_id;
  is_rl : bool;
  vx : Q;
  vspeed : Q;
  vleader : option veh_id;
  vheadway : Q
}.

Definition find_vehicle (tbl : list vehicle) (v : veh_id) : option vehicle :=
  find (fun r => String.eqb (vid r) v) tbl.

(** A kernel that answers from a table of vehicles. *)
Definition kernel_of (tbl : list vehicle) : VehicleKernel :=
  let ask {A} (f : vehicle -> A) (dflt : A) (v : veh_id) : A :=
    match find_vehicle tbl v with
    | Some r => f r
    | None => dflt
    end in
  {| get_rl_ids := map vid (filter is_rl tbl);
     get_ids := map vid tbl;
     get_x_by_id := ask vx (-1001);
     get_speed := ask vspeed (-1001);
     get_leader := ask vleader None;
     get_headway := ask vheadway 1000;
     accelerations := [] |}.

(** The defaults of [ADDITIONAL_ENV_PARAMS], with a target velocity. *)
Definition ADDITIONAL_ENV_PARAMS (target : Q) : AdditionalParams :=
  {| max_accel := 1;
     max_decel := 1;
     terminate_on_wave := true;
     wave_termination_horizon := 500;
     wave_termination_speed := 10;
     target_velocity := target |}.

Definition example_env (tbl : list vehicle) (target : Q) (t : Z) : Env :=
  {| k := kernel_of tbl;
     additional_params := ADDITIONAL_ENV_PARAMS target;
     lead_obs := true;
     max_lanes := 1;
     time_counter := t |}.

(** A controllable vehicle at position [x] with speed [v] and no leader. *)
Definition rl_vehicle (name : veh_id) (x v : Q) : vehicle :=
  {| vid := name; is_rl := true; vx := x; vspeed := v;
     vleader := None; vheadway := 1000 |}.

(** Nine controllable vehicles, ["rl_0"] furthest back and ["rl_8"] furthest
    along the road. *)
Definition nine_vehicles : list vehicle :=
  [ rl_vehicle "rl_0" 10 20; rl_vehicle "rl_1" 20 20;
    rl_vehicle "rl_2" 30 20; rl_vehicle "rl_3" 40 20;
    rl_vehicle "rl_4" 50 20; rl_vehicle "rl_5" 60 20;
    rl_vehicle "rl_6" 70 20; rl_vehicle "rl_7" 80 20;
    rl_vehicle "rl_8" 90 20 ].

Definition env_nine : Env := example_env nine_vehicles 10 0.

(** One controllable vehicle driving at [v], target velocity [target]. *)
Definition env_one (target v : Q) : Env :=
  example_env [rl_vehicle "rl_0" 0 v] target 0.



(** A human-driven vehicle ["h_0"] leads ["rl_1"]; ["rl_0"] has no leader
    and ["rl_2"] reports the empty string. *)
Definition env_leaders : Env :=
  example_env
    [ {| vid := "h_0"; is_rl := false; vx := 95; vspeed := 12;
         vleader := None; vheadway := 1000 |};
      rl_vehicle "rl_0" 90 20;
      {| vid := "rl_1"; is_rl := true; vx := 50; vspeed := 15;
         vleader := Some "h_0"%string; vheadway := 45 |};
      {| vid := "rl_2"; is_rl := true; vx := 20; vspeed := 10;
         vleader := Some ""%string; vheadway := 0 |} ]
    10 0.

(** A base-class step for the examples: one simulation step passes, nothing
    else changes, and the episode is over from step [horizon] on. *)
Definition example_super_step (horizon : Z) (e : Env)
  (rl_actions : option (list Q)) : Env * StepResult unit :=
  let e' :=
    {| k := k e; additional_params := additional_params e;
       lead_obs := lead_obs e; max_lanes := max_lanes e;
       time_counter := time_counter e + 1 |} in
  (e', {| obs := get_state e';
          rew := compute_reward e' rl_actions;
          done := (horizon <=? time_counter e')%Z;
          info := tt |}).

(** A slow road: two vehicles, mean speed 5. *)
Definition slow_vehicles : list vehicle :=
  [ rl_vehicle "rl_0" 0 4;
    {| vid := "h_0"; is_rl := false; vx := 30; vspeed := 6;
       vleader := None; vheadway := 1000 |} ].

(** ** Construction and spaces *)

(** [I210SingleEnv.__init__], after the base class has built [base]: the
    observation mode is read from the parameters and [max_lanes] is
    [MAX_LANES]. *)
Definition I210SingleEnv_init (base : Env) (lead : bool) : Env :=
  {| k := k base;
     additional_params := additional_params base;
     lead_obs := lead;
     max_lanes := MAX_LANES;
     time_counter := time_counter base |}.

(** [SingleStraightRoad.__init__]: as its superclass, then one lane. *)
Definition SingleStraightRoad_init (base : Env) (lead : bool) : Env :=
  let self := I210SingleEnv_init base lead in
  {| k := k self;
     additional_params := additional_params self;
     lead_obs := lead_obs self;
     max_lanes := 1;
     time_counter := time_counter self |}.

(** A gym [Box] of one dimension. *)
Record Box : Type := {
  low : Np.float64;
  high : Np.float64;
  shape : nat
}.

Definition observation_space (e : Env) : Box :=
  {| low := Np.NegInf;
     high := Np.PosInf;
     shape := observation_space_shape e |}.


(** ** Observed vehicles *)

(** Python's truth value of a leader: [None] and [""] are false. *)
Definition truthy (lead_id : option veh_id) : bool :=
  match lead_id with
  | None => false
  | Some s => negb (String.eqb s "")
  end.

(** [additional_command]: the [set_observed] calls it makes, in order. *)
Definition additional_command (e : Env) : list veh_id :=
  fold_left
    (fun observed rl_id =>
       let lead_id := get_leader (k e) rl_id in
       if truthy lead_id then observed ++ [the_id lead_id] else observed)
    (get_rl_ids (k e)) [].

(** ** Per-lane state *)

(** The per-lane queries of [self.k.vehicle] that [state_util] and
    [veh_statistics] use. *)
Record LaneKernel : Type := {
  get_lane_headways : veh_id -> list Q;
  get_lane_tailways : veh_id -> list Q;
  get_lane_leaders_speed : veh_id -> list Q;
  get_lane_followers_speed : veh_id -> list Q;
  get_lane_leaders : veh_id -> list veh_id;
  get_lane_followers : veh_id -> list veh_id;
  get_lane : veh_id -> Z
}.

(** [1 if v in rl_ids else 0]. *)
Definition rl_flag (rl_ids : list veh_id) (v : veh_id) : Q :=
  if existsb (String.eqb v) rl_ids then 1 else 0.

Definition state_util (e : Env) (veh : LaneKernel) (rl_id : veh_id)
  : list Q :=
  let lane_headways := get_lane_headways veh rl_id in
  let lane_tailways := get_lane_tailways veh rl_id in
  let lane_leader_speed := get_lane_leaders_speed veh rl_id in
  let lane_follower_speed := get_lane_followers_speed veh rl_id in
  let leader_ids := get_lane_leaders veh rl_id in
  let follower_ids := get_lane_followers veh rl_id in
  let rl_ids := get_rl_ids (k e) in
  let is_leader_rl := map (rl_flag rl_ids) leader_ids in
  let is_follow_rl := map (rl_flag rl_ids) follower_ids in
  let diff := (Z.of_nat MAX_LANES - Z.of_nat (length is_leader_rl))%Z in
  let pad (l : list Q) : list Q :=
    if (0 <? diff)%Z then l ++ repeat (-1) (Z.to_nat diff) else l in
  let lane_headways := map (fun x => x / 1000) (pad lane_headways) in
  let lane_tailways := map (fun x => x / 1000) (pad lane_tailways) in
  let lane_leader_speed := map (fun x => x / 100) (pad lane_leader_speed) in
  let lane_follower_speed :=
    map (fun x => x / 100) (pad lane_follower_speed) in
  lane_headways ++ lane_tailways ++ lane_leader_speed
  ++ lane_follower_speed ++ pad is_leader_rl ++ pad is_follow_rl.

Definition veh_statistics (e : Env) (veh : LaneKernel) (rl_id : veh_id)
  : list Q :=
  let speed := get_speed (k e) rl_id / 100 in
  let lane := inject_Z (get_lane veh rl_id + 1) / 10 in
  [speed; lane].

(** ** Notions the further properties are stated with *)

(** The vehicles at position [c]. *)
Definition at_position (e : Env) (c : Q) (v : veh_id) : bool :=
  Qeq_bool (get_x_by_id (k e) v) c.

(** A kernel that reports [n] lanes around every vehicle. *)
Definition reports_lanes (veh : LaneKernel) (rl_id : veh_id) (n : nat)
  : Prop :=
  length (get_lane_headways veh rl_id) = n /\
  length (get_lane_tailways veh rl_id) = n /\
  length (get_lane_leaders_speed veh rl_id) = n /\
  length (get_lane_followers_speed veh rl_id) = n /\
  length (get_lane_leaders veh rl_id) = n /\
  length (get_lane_followers veh rl_id) = n.

(** ** Further example environments *)

(** Three controllable vehicles; the first two share a position. *)
Definition env_ties : Env :=
  example_env
    [rl_vehicle "rl_0" 30 10; rl_vehicle "rl_1" 30 12; rl_vehicle "rl_2" 50 9]
    10 0.

(** Two lanes around every vehicle; ["rl_1"] leads on the first. *)
Definition two_lanes : LaneKernel :=
  {| get_lane_headways := fun _ => [25; 1000];
     get_lane_tailways := fun _ => [40; 1000];
     get_lane_leaders_speed := fun _ => [12; 0];
     get_lane_followers_speed := fun _ => [9; 0];
     get_lane_leaders := fun _ => ["rl_1"; ""]%string;
     get_lane_followers := fun _ => ["h_0"; ""]%string;
     get_lane := fun _ => 0%Z |}.

(** * Properties *)

(** ** Sorting and slicing *)

Section Sorting.

Variable key : veh_id -> Q.

Lemma insert_by_perm (a : veh_id) (l : list veh_id) :
  Permutation (insert_by key a l) (a :: l).
Proof.
  induction l as [|b l IH]; simpl.
  - apply Permutation_refl.
  - destruct (Qle_bool (key a) (key b)).
    + apply Permutation_refl.
    + eapply perm_trans; [apply perm_skip, IH | apply perm_swap].
Qed.

Lemma sorted_perm (l : list veh_id) : Permutation (sorted l key) l.
Proof.
  induction l as [|a l IH]; simpl.
  - constructor.
  - eapply perm_trans; [apply insert_by_perm | apply perm_skip, IH].
Qed.

Lemma insert_by_ascending (a : veh_id) (l : list veh_id) :
  StronglySorted (ascending_by key) l ->
  StronglySorted (ascending_by key) (insert_by key a l).
Proof.
  induction 1 as [|b l Hs IH Hb]; simpl.
  - repeat constructor.
  - destruct (Qle_bool (key a) (key b)) eqn:Hab.
    + apply Qle_bool_iff in Hab.
      constructor; [constructor; assumption|].
      constructor; [exact Hab|].
      rewrite Forall_forall in Hb |- *.
      intros c Hc. unfold ascending_by in *.
      eapply Qle_trans; [exact Hab | apply Hb, Hc].
    + assert (Hba : key b <= key a).
      { apply Qlt_le_weak, Qnot_le_lt. intro Hle.
        apply Qle_bool_iff in Hle. congruence. }
      constructor; [exact IH|].
      rewrite Forall_forall in Hb |- *.
      intros c Hc.
      apply (Permutation_in _ (insert_by_perm a l)) in Hc.
      destruct Hc as [<- | Hc]; [exact Hba | apply Hb, Hc].
Qed.

Lemma sorted_ascending (l : list veh_id) :
  StronglySorted (ascending_by key) (sorted l key).
Proof.
  induction l as [|a l IH]; simpl.
  - constructor.
  - apply insert_by_ascending, IH.
Qed.

Lemma StronglySorted_snoc (R : veh_id -> veh_id -> Prop)
  (l : list veh_id) (a : veh_id) :
  StronglySorted R l -> Forall (fun b => R b a) l ->
  StronglySorted R (l ++ [a]).
Proof.
  induction 1 as [|b l Hs IH Hb]; intros Hall; simpl.
  - repeat constructor.
  - inversion Hall as [|? ? Hba Hl]; subst.
    constructor; [apply IH, Hl|].
    apply Forall_app; split; [exact Hb | repeat constructor; exact Hba].
Qed.

Lemma rev_sorted_descending (l : list veh_id) :
  StronglySorted (descending_by key) (rev (sorted l key)).
Proof.
  generalize (sorted_ascending l).
  induction 1 as [|b s Hs IH Hb]; simpl.
  - constructor.
  - apply StronglySorted_snoc; [exact IH|].
    rewrite Forall_forall in Hb |- *.
    intros c Hc. apply Hb, in_rev, Hc.
Qed.

Lemma StronglySorted_app_inv (R : veh_id -> veh_id -> Prop)
  (l1 l2 : list veh_id) :
  StronglySorted R (l1 ++ l2) ->
  StronglySorted R l2 /\ forall a b, In a l1 -> In b l2 -> R a b.
Proof.
  induction l1 as [|c l1 IH]; simpl; intros Hs.
  - split; [exact Hs | intros a b []].
  - inversion Hs as [|? ? Hs' Hc]; subst.
    destruct (IH Hs') as [H2 Hcross].
    split; [exact H2|].
    intros a b [<- | Ha] Hb.
    + rewrite Forall_forall in Hc. apply Hc, in_or_app. right; exact Hb.
    + apply Hcross; assumption.
Qed.

End Sorting.

Lemma last_n_split (n : nat) (l : list veh_id) :
  l = firstn (length l - n) l ++ last_n n l.
Proof. unfold last_n. symmetry. apply firstn_skipn. Qed.

Lemma last_n_length (n : nat) (l : list veh_id) :
  length (last_n n l) = Nat.min n (length l).
Proof. unfold last_n. rewrite length_skipn. lia. Qed.

Lemma get_sorted_rl_ids_length (e : Env) :
  length (get_sorted_rl_ids e)
  = Nat.min MAX_NUM_VEHS (length (get_rl_ids (k e))).
Proof.
  unfold get_sorted_rl_ids.
  rewrite last_n_length, length_rev.
  now rewrite (Permutation_length (sorted_perm _ _)).
Qed.

Lemma get_sorted_rl_ids_le (e : Env) :
  (length (get_sorted_rl_ids e) <= MAX_NUM_VEHS)%nat.
Proof. rewrite get_sorted_rl_ids_length. apply Nat.le_min_l. Qed.

(** ** Vehicle selection: which vehicles are kept *)

(** C1, as the code has it: [get_sorted_rl_ids] returns at most
    [MAX_NUM_VEHS] = 8 identifiers of live controllable vehicles in
    descending position along the road, and the vehicles it leaves out are
    those furthest along: every vehicle left out is at or ahead of every
    vehicle kept.  With nine live controllable vehicles exactly one is left
    out, and no vehicle is ahead of it. *)
Theorem get_sorted_rl_ids_keeps_rearmost (e : Env) :
  let x := get_x_by_id (k e) in
  let sel := get_sorted_rl_ids e in
  length sel = Nat.min 8 (length (get_rl_ids (k e))) /\
  (length sel <= 8)%nat /\
  descending e sel /\
  exists dropped,
    Permutation (dropped ++ sel) (get_rl_ids (k e)) /\
    (forall d s, In d dropped -> In s sel -> x s <= x d) /\
    (length (get_rl_ids (k e)) = 9%nat ->
     exists d, dropped = [d] /\
               forall v, In v (get_rl_ids (k e)) -> x v <= x d).
Proof.
  intros x sel.
  pose (all := rev (sorted (get_rl_ids (k e)) x)).
  assert (Hall : StronglySorted (descending_by x) all)
    by apply rev_sorted_descending.
  assert (Hperm : Permutation all (get_rl_ids (k e))).
  { unfold all. eapply perm_trans;
      [symmetry; apply Permutation_rev | apply sorted_perm]. }
  assert (Hsplit : all = firstn (length all - 8) all ++ sel)
    by apply last_n_split.
  set (dropped := firstn (length all - 8) all) in Hsplit.
  rewrite Hsplit in Hall, Hperm.
  destruct (StronglySorted_app_inv _ _ _ Hall) as [Hsel Hcross].
  split; [apply get_sorted_rl_ids_length|].
  split; [apply get_sorted_rl_ids_le|].
  split; [exact Hsel|].
  exists dropped.
  split; [exact Hperm|].
  split; [intros d s Hd Hs; apply Hcross; assumption|].
  intros Hnine.
  assert (Hlen : length dropped = 1%nat).
  { pose proof (Permutation_length Hperm) as Hl.
    rewrite length_app in Hl.
    pose proof (get_sorted_rl_ids_length e) as Hs.
    fold sel in Hs. unfold MAX_NUM_VEHS in Hs. lia. }
  destruct dropped as [|d [|d' rest]]; try discriminate.
  exists d. split; [reflexivity|].
  intros v Hv.
  apply (Permutation_in _ (Permutation_sym Hperm)) in Hv.
  destruct Hv as [<- | Hv].
  - apply Qle_refl.
  - apply Hcross; [left; reflexivity | exact Hv].
Qed.

(** C1, counterexample.  Of nine controllable vehicles at positions 10, 20,
    ..., 90 the selection leaves out ["rl_8"], the vehicle furthest along, and
    keeps ["rl_0"], the one furthest back: it does not keep the vehicles
    closest to the front. *)
Lemma get_sorted_rl_ids_drops_front_vehicle :
  get_sorted_rl_ids env_nine
  = ["rl_7"; "rl_6"; "rl_5"; "rl_4"; "rl_3"; "rl_2"; "rl_1"; "rl_0"]%string
  /\ (forall v, In v (get_rl_ids (k env_nine)) ->
        get_x_by_id (k env_nine) "rl_0" <= get_x_by_id (k env_nine) v)
  /\ ~ keeps_closest_to_front env_nine (get_sorted_rl_ids env_nine).
Proof.
  split; [reflexivity|].
  split.
  - intros v Hv. simpl in Hv.
    repeat (destruct Hv as [<- | Hv]; [vm_compute; discriminate|]).
    destruct Hv.
  - intros H.
    specialize (H "rl_8"%string "rl_0"%string).
    assert (Hfalse : get_x_by_id (k env_nine) "rl_8"
                     <= get_x_by_id (k env_nine) "rl_0").
    { apply H.
      - simpl. tauto.
      - change (get_sorted_rl_ids env_nine)
          with ["rl_7"; "rl_6"; "rl_5"; "rl_4"; "rl_3"; "rl_2"; "rl_1";
                "rl_0"]%string.
        simpl. intros Hin.
        repeat (destruct Hin as [Heq | Hin]; [discriminate Heq|]).
        exact Hin.
      - change (get_sorted_rl_ids env_nine)
          with ["rl_7"; "rl_6"; "rl_5"; "rl_4"; "rl_3"; "rl_2"; "rl_1";
                "rl_0"]%string.
        simpl. tauto. }
    vm_compute in Hfalse. apply Hfalse. reflexivity.
Qed.

(** ** Observation: slice writes *)

(** Writing [vals] over [a[lo : lo + len(vals)]], inside the array. *)
Lemma splice_spec (a vals : list Q) (lo : nat) :
  (lo + length vals <= length a)%nat ->
  let a' := firstn lo a ++ vals ++ skipn (lo + length vals) a in
  length a' = length a /\
  (forall j, (j < lo \/ lo + length vals <= j)%nat ->
             nth_error a' j = nth_error a j) /\
  (forall c, (c < length vals)%nat ->
             nth_error a' (lo + c) = nth_error vals c).
Proof.
  intros Hb a'. unfold a'.
  assert (Hlo : length (firstn lo a) = lo)
    by (rewrite length_firstn; lia).
  split; [|split].
  - rewrite !length_app, Hlo, length_skipn. lia.
  - intros j [Hj | Hj].
    + rewrite nth_error_app1 by lia.
      rewrite nth_error_firstn.
      destruct (Nat.ltb_spec j lo); [reflexivity | lia].
    + rewrite nth_error_app2 by lia.
      rewrite nth_error_app2 by lia.
      rewrite nth_error_skipn, Hlo. f_equal. lia.
  - intros c Hc.
    rewrite nth_error_app2 by lia.
    rewrite nth_error_app1 by lia.
    f_equal. lia.
Qed.

(** A three-entry slice assignment succeeds exactly when the slice lies
    inside the array. *)
Lemma set_slice_triple (a vals : list Q) (i : nat) :
  length vals = 3%nat ->
  Np.set_slice a (i * 3) ((i + 1) * 3) vals
  = if (3 * i + 3 <=? length a)%nat
    then Some (firstn (3 * i) a ++ vals ++ skipn (3 * i + length vals) a)
    else None.
Proof.
  intros Hv. unfold Np.set_slice. rewrite Hv.
  destruct (Nat.leb_spec (3 * i + 3) (length a)) as [Hle | Hgt].
  - replace (Nat.min (i * 3) (length a)) with (3 * i)%nat by lia.
    replace (Nat.min ((i + 1) * 3) (length a)) with (3 * i + 3)%nat by lia.
    replace (3 * i + 3 - 3 * i)%nat with 3%nat by lia.
    reflexivity.
  - destruct (Nat.eqb_spec 3
                (Nat.min ((i + 1) * 3) (length a)
                 - Nat.min (i * 3) (length a))) as [Heq | Hne].
    + lia.
    + destruct vals as [|v0 [|v1 [|v2 [|v3 vals]]]]; try discriminate.
      reflexivity.
Qed.

Lemma vehicle_obs_length (e : Env) (rl_id : veh_id) :
  length (vehicle_obs e rl_id) = 3%nat.
Proof.
  unfold vehicle_obs.
  destruct (no_leader (get_leader (k e) rl_id)); reflexivity.
Qed.

(** What a run of the observation loop that returns has done: the array
    keeps its length, entries outside the written triples are unchanged, and
    the triple of the [p]-th vehicle holds that vehicle's values. *)
Lemma get_state_loop_Some (e : Env) (rl_ids : list veh_id) :
  forall i v v',
    get_state_loop e 3 i rl_ids v = Some v' ->
    length v' = length v /\
    (forall j, (j < 3 * i \/ 3 * (i + length rl_ids) <= j)%nat ->
               nth_error v' j = nth_error v j) /\
    (forall p rl_id c,
        nth_error rl_ids p = Some rl_id -> (c < 3)%nat ->
        nth_error v' (3 * (i + p) + c)
        = nth_error (vehicle_obs e rl_id) c).
Proof.
  induction rl_ids as [|r rest IH]; intros i v v' Hrun; simpl in Hrun.
  - injection Hrun as <-.
    split; [reflexivity|]. split; [reflexivity|].
    intros [|p] rl_id c Hp; discriminate Hp.
  - pose proof (vehicle_obs_length e r) as Hlen.
    rewrite (set_slice_triple _ _ _ Hlen) in Hrun.
    destruct (Nat.leb_spec (3 * i + 3) (length v)) as [Hle | Hgt];
      [|discriminate].
    destruct (splice_spec v (vehicle_obs e r) (3 * i)) as (Hl1 & Hout1 & Hin1);
      [lia|].
    set (v1 := firstn (3 * i) v ++ vehicle_obs e r
               ++ skipn (3 * i + length (vehicle_obs e r)) v) in *.
    destruct (IH _ _ _ Hrun) as (Hl2 & Hout2 & Hin2).
    split; [congruence|]. split.
    + intros j Hj. simpl length in Hj.
      rewrite Hout2 by lia. apply Hout1. lia.
    + intros [|p] rl_id c Hp Hc; simpl in Hp.
      * injection Hp as <-.
        rewrite Hout2 by lia.
        replace (3 * (i + 0) + c)%nat with (3 * i + c)%nat by lia.
        apply Hin1. lia.
      * replace (3 * (i + S p) + c)%nat with (3 * (S i + p) + c)%nat by lia.
        apply Hin2; assumption.
Qed.

(** The loop returns when the triples of all its vehicles fit the array. *)
Lemma get_state_loop_total (e : Env) (rl_ids : list veh_id) :
  forall i v,
    (3 * (i + length rl_ids) <= length v)%nat ->
    exists v', get_state_loop e 3 i rl_ids v = Some v'.
Proof.
  induction rl_ids as [|r rest IH]; intros i v Hfit; simpl in *.
  - eexists; reflexivity.
  - pose proof (vehicle_obs_length e r) as Hlen.
    rewrite (set_slice_triple _ _ _ Hlen).
    destruct (Nat.leb_spec (3 * i + 3) (length v)) as [Hle | Hgt]; [|lia].
    apply IH.
    destruct (splice_spec v (vehicle_obs e r) (3 * i)) as (Hl1 & _); [lia|].
    rewrite Hl1. lia.
Qed.

(** In lead-observation mode [get_state] returns: eight triples fit the
    24 slots. *)
Lemma get_state_total (e : Env) :
  lead_obs e = true -> exists v, get_state e = Some v.
Proof.
  intros Hlead. unfold get_state.
  apply get_state_loop_total.
  unfold Np.zeros, observation_space_shape.
  rewrite Hlead, repeat_length.
  pose proof (get_sorted_rl_ids_le e). unfold MAX_NUM_VEHS in *. lia.
Qed.

Lemma get_state_length (e : Env) (v : list Q) :
  get_state e = Some v -> length v = observation_space_shape e.
Proof.
  unfold get_state. intros Hrun.
  apply get_state_loop_Some in Hrun. destruct Hrun as (Hl & _).
  rewrite Hl. apply repeat_length.
Qed.

(** ** Observation: shape, padding and sentinels *)

(** C5.  In lead-observation mode [get_state] returns a vector of exactly
    24 = 3 * 8 entries whatever the number of live controllable vehicles;
    with up to eight live vehicles all of them are selected, and every entry
    from index 3 * (number selected) on is exactly zero. *)
Theorem get_state_fixed_length_zero_padded (e : Env) :
  lead_obs e = true ->
  exists v,
    get_state e = Some v /\
    length v = 24%nat /\
    ((length (get_rl_ids (k e)) <= 8)%nat ->
     length (get_sorted_rl_ids e) = length (get_rl_ids (k e))) /\
    forall j,
      (3 * length (get_sorted_rl_ids e) <= j < 24)%nat ->
      nth_error v j = Some 0.
Proof.
  intros Hlead.
  destruct (get_state_total e Hlead) as [v Hv].
  exists v. split; [exact Hv|].
  pose proof (get_state_length e v Hv) as Hlen.
  unfold observation_space_shape in Hlen. rewrite Hlead in Hlen.
  split; [exact Hlen|]. split.
  - intros Hle. rewrite get_sorted_rl_ids_length. unfold MAX_NUM_VEHS. lia.
  - intros j [Hlo Hhi].
    unfold get_state in Hv.
    apply get_state_loop_Some in Hv. destruct Hv as (_ & Hout & _).
    rewrite Hout by (right; simpl; exact Hlo).
    apply nth_error_repeat.
    unfold observation_space_shape. now rewrite Hlead.
Qed.

Lemma get_state_fixed_length_zero_padded_witness :
  lead_obs env_leaders = true /\
  exists v,
    get_state env_leaders = Some v /\
    length v = 24%nat /\
    ((length (get_rl_ids (k env_leaders)) <= 8)%nat ->
     length (get_sorted_rl_ids env_leaders)
     = length (get_rl_ids (k env_leaders))) /\
    forall j,
      (3 * length (get_sorted_rl_ids env_leaders) <= j < 24)%nat ->
      nth_error v j = Some 0.
Proof.
  split; [reflexivity|].
  apply (get_state_fixed_length_zero_padded env_leaders). reflexivity.
Defined.

(** C6.  In the observation [get_state] returns, the triple of a selected
    vehicle whose leader is [""] or [None] holds the scaled sentinels in its
    headway and leader-speed entries: [HEADWAY_SCALE / HEADWAY_SCALE] and
    [SPEED_SCALE / SPEED_SCALE], both equal to 1 and so never zero. *)
Theorem get_state_no_leader_sentinels
  (e : Env) (v : list Q) (i : nat) (rl_id : veh_id) :
  get_state e = Some v ->
  nth_error (get_sorted_rl_ids e) i = Some rl_id ->
  get_leader (k e) rl_id = None \/ get_leader (k e) rl_id = Some ""%string ->
  nth_error v (3 * i + 1) = Some (HEADWAY_SCALE / HEADWAY_SCALE) /\
  nth_error v (3 * i + 2) = Some (SPEED_SCALE / SPEED_SCALE) /\
  HEADWAY_SCALE / HEADWAY_SCALE == 1 /\
  SPEED_SCALE / SPEED_SCALE == 1 /\
  ~ HEADWAY_SCALE / HEADWAY_SCALE == 0 /\
  ~ SPEED_SCALE / SPEED_SCALE == 0.
Proof.
  intros Hv Hsel Hlead.
  unfold get_state in Hv.
  apply get_state_loop_Some in Hv. destruct Hv as (_ & _ & Hin).
  assert (Hobs : vehicle_obs e rl_id
                 = [get_speed (k e) rl_id / SPEED_SCALE;
                    HEADWAY_SCALE / HEADWAY_SCALE;
                    SPEED_SCALE / SPEED_SCALE]).
  { unfold vehicle_obs. destruct Hlead as [-> | ->]; reflexivity. }
  split; [|split].
  - pose proof (Hin i rl_id 1%nat Hsel ltac:(lia)) as H1.
    change (3 * (0 + i) + 1)%nat with (3 * i + 1)%nat in H1.
    rewrite H1, Hobs. reflexivity.
  - pose proof (Hin i rl_id 2%nat Hsel ltac:(lia)) as H2.
    change (3 * (0 + i) + 2)%nat with (3 * i + 2)%nat in H2.
    rewrite H2, Hobs. reflexivity.
  - repeat split; vm_compute; congruence.
Qed.

Lemma get_state_no_leader_sentinels_witness :
  get_state env_leaders
  = Some ([20 / 50; 1000 / 1000; 50 / 50;
           15 / 50; 45 / 1000; 12 / 50;
           10 / 50; 1000 / 1000; 50 / 50] ++ repeat 0 15) /\
  nth_error (get_sorted_rl_ids env_leaders) 2 = Some "rl_2"%string /\
  get_leader (k env_leaders) "rl_2" = Some ""%string /\
  nth_error ([20 / 50; 1000 / 1000; 50 / 50;
              15 / 50; 45 / 1000; 12 / 50;
              10 / 50; 1000 / 1000; 50 / 50] ++ repeat 0 15) (3 * 2 + 1)
  = Some (HEADWAY_SCALE / HEADWAY_SCALE).
Proof.
  split; [reflexivity|]. split; [reflexivity|]. split; [reflexivity|].
  apply (proj1 (get_state_no_leader_sentinels env_leaders _ 2 "rl_2"%string
                  eq_refl eq_refl (or_intror eq_refl))).
Defined.

(** ** Action application *)

Lemma skipn_cons_nth_error (l : list Q) :
  forall i a, nth_error l i = Some a -> skipn i l = a :: skipn (S i) l.
Proof.
  induction l as [|b l IH]; intros [|i] a Hi; try discriminate.
  - injection Hi as ->. reflexivity.
  - simpl in Hi. change (skipn (S i) (b :: l)) with (skipn i l).
    rewrite (IH _ _ Hi). reflexivity.
Qed.

(** With enough actions the loop reads [rl_actions[i]], [rl_actions[i+1]],
    ..., one per vehicle, and nothing else. *)
Lemma collect_accels_spec (rl_actions : list Q) (rl_ids : list veh_id) :
  forall i accels veh_ids,
    (i + length rl_ids <= length rl_actions)%nat ->
    collect_accels rl_actions i rl_ids accels veh_ids
    = Some (accels ++ firstn (length rl_ids) (skipn i rl_actions),
            veh_ids ++ rl_ids).
Proof.
  induction rl_ids as [|r rest IH]; intros i accels veh_ids Hfit; simpl in *.
  - now rewrite !app_nil_r.
  - destruct (nth_error rl_actions i) as [a|] eqn:Hi.
    + rewrite IH by lia.
      rewrite (skipn_cons_nth_error _ _ _ Hi). simpl.
      now rewrite <- !app_assoc.
    + apply nth_error_None in Hi. lia.
Qed.

(** An action vector shorter than the selection raises [IndexError]. *)
Lemma collect_accels_short (rl_actions : list Q) (rl_ids : list veh_id) :
  forall i accels veh_ids,
    (i <= length rl_actions < i + length rl_ids)%nat ->
    collect_accels rl_actions i rl_ids accels veh_ids = None.
Proof.
  induction rl_ids as [|r rest IH]; intros i accels veh_ids Hshort;
    simpl in *.
  - lia.
  - destruct (nth_error rl_actions i) as [a|] eqn:Hi; [|reflexivity].
    assert (i < length rl_actions)%nat
      by (apply nth_error_Some; congruence).
    apply IH. lia.
Qed.

Lemma _apply_rl_actions_Some (e : Env) (rl_actions : list Q) :
  (length (get_sorted_rl_ids e) <= length rl_actions)%nat ->
  _apply_rl_actions e (Some rl_actions)
  = Some (with_kernel e
            (apply_acceleration (k e) (get_sorted_rl_ids e)
               (firstn (length (get_sorted_rl_ids e)) rl_actions))).
Proof.
  intros Hfit. unfold _apply_rl_actions.
  rewrite collect_accels_spec by (simpl; exact Hfit).
  reflexivity.
Qed.

(** C8.  In the warm-up steps, where the action is [None],
    [_apply_rl_actions] returns without a call of [apply_acceleration]: the
    environment, and with it the list of actuation calls the kernel has
    received, is unchanged; and [compute_reward] returns the empty dict, not
    a number. *)
Theorem warmup_no_actuation_no_reward (e : Env) :
  _apply_rl_actions e None = Some e /\
  option_map (fun e' => accelerations (k e')) (_apply_rl_actions e None)
  = Some (accelerations (k e)) /\
  compute_reward e None = EmptyDict /\
  (forall r, compute_reward e None <> Reward r).
Proof.
  split; [reflexivity|]. split; [reflexivity|].
  split; [reflexivity | discriminate].
Qed.

(** Outside the warm-up, an application that returns has made exactly one
    actuation call, and the reward is a number. *)
Lemma controlled_step_actuates (e e' : Env) (rl_actions : list Q) :
  _apply_rl_actions e (Some rl_actions) = Some e' ->
  length (accelerations (k e')) = S (length (accelerations (k e))) /\
  compute_reward e (Some rl_actions) <> EmptyDict.
Proof.
  unfold _apply_rl_actions. intros Hrun.
  destruct (collect_accels rl_actions 0 (get_sorted_rl_ids e) [] [])
    as [[accels veh_ids]|]; [|discriminate].
  injection Hrun as <-. simpl.
  split; [rewrite length_app; simpl; lia | discriminate].
Qed.

(** C10.  With more than eight live controllable vehicles the selection
    holds exactly eight identifiers.  So, in lead-observation mode,
    [get_state] returns (no slice assignment falls outside the array) a
    vector of 24 slots, and [_apply_rl_actions], given an action vector of
    at least [action_space_shape] = 8 entries, returns (no index falls
    outside the vector) having applied its first eight entries, one per
    selected vehicle. *)
Theorem selection_bounds_state_and_actions (e : Env) (rl_actions : list Q) :
  lead_obs e = true ->
  (8 < length (get_rl_ids (k e)))%nat ->
  (action_space_shape <= length rl_actions)%nat ->
  length (get_sorted_rl_ids e) = 8%nat /\
  (exists v, get_state e = Some v /\ length v = 24%nat) /\
  exists e',
    _apply_rl_actions e (Some rl_actions) = Some e' /\
    accelerations (k e')
    = accelerations (k e) ++ [(get_sorted_rl_ids e, firstn 8 rl_actions)].
Proof.
  intros Hlead Hmany Hacts.
  assert (Hsel : length (get_sorted_rl_ids e) = 8%nat).
  { rewrite get_sorted_rl_ids_length. unfold MAX_NUM_VEHS. lia. }
  split; [exact Hsel|]. split.
  - destruct (get_state_total e Hlead) as [v Hv].
    exists v. split; [exact Hv|].
    rewrite (get_state_length e v Hv).
    unfold observation_space_shape. now rewrite Hlead.
  - eexists. split.
    + apply _apply_rl_actions_Some.
      rewrite Hsel. exact Hacts.
    + simpl. now rewrite Hsel.
Qed.

Lemma selection_bounds_state_and_actions_witness :
  lead_obs env_nine = true /\
  (8 < length (get_rl_ids (k env_nine)))%nat /\
  length (get_sorted_rl_ids env_nine) = 8%nat /\
  (exists v, get_state env_nine = Some v /\ length v = 24%nat) /\
  exists e',
    _apply_rl_actions env_nine (Some [1; 1; 1; 1; 0; 0; 0; 0; -1]) = Some e' /\
    accelerations (k e')
    = accelerations (k env_nine)
      ++ [(get_sorted_rl_ids env_nine,
           firstn 8 [1; 1; 1; 1; 0; 0; 0; 0; -1])].
Proof.
  split; [reflexivity|]. split; [vm_compute; lia|].
  apply (selection_bounds_state_and_actions env_nine
           [1; 1; 1; 1; 0; 0; 0; 0; -1]).
  - reflexivity.
  - vm_compute. lia.
  - vm_compute. lia.
Defined.

(** ** Reward: the arithmetic *)

Lemma fold_left_Qplus (l : list Q) :
  forall acc, fold_left Qplus l acc == acc + fold_right Qplus 0 l.
Proof.
  induction l as [|x l IH]; intros acc; simpl.
  - lra.
  - rewrite IH. lra.
Qed.

Lemma sum_fold_right (l : list Q) : Np.sum l == fold_right Qplus 0 l.
Proof. unfold Np.sum. rewrite fold_left_Qplus. lra. Qed.

(** On a list that is not empty [np.mean] is the arithmetic mean. *)
Lemma mean_average (l : list Q) :
  l <> [] ->
  exists m, Np.mean l = Np.Finite m /\ m == average l.
Proof.
  destruct l as [|x l]; [congruence|]. intros _.
  eexists. split; [reflexivity|].
  unfold average. now rewrite sum_fold_right.
Qed.





(** ** Reward: the formula *)




(** ** Reward: no controllable vehicle *)




(** ** Reward: at the target, and away from it *)

Lemma positive_length (l : list Q) :
  l <> [] -> 0 < inject_Z (Z.of_nat (length l)).
Proof.
  destruct l as [|y l]; [congruence|]. intros _.
  change 0 with (inject_Z 0). rewrite <- Zlt_Qlt.
  change (length (y :: l)) with (S (length l)). lia.
Qed.







(** ** Wave termination *)

Lemma Qlt_bool_iff (a b : Q) : Qlt_bool a b = true <-> a < b.
Proof.
  unfold Qlt_bool. rewrite negb_true_iff. split.
  - intros Hf. apply Qnot_le_lt. intros Hle.
    apply Qle_bool_iff in Hle. congruence.
  - intros Hlt. destruct (Qle_bool b a) eqn:E; [|reflexivity].
    apply Qle_bool_iff in E. lra.
Qed.

(** With a vehicle on the road, the mean speed [step] computes is the
    arithmetic mean of the speeds of all vehicles. *)
Lemma mean_speed_average (e : Env) :
  (0 < length (get_ids (k e)))%nat ->
  mean_speed e == average (map (get_speed (k e)) (get_ids (k e))).
Proof.
  intros Hpos. unfold mean_speed.
  destruct (mean_average (map (get_speed (k e)) (get_ids (k e))))
    as (m & Hm & Hav).
  - destruct (get_ids (k e)); [simpl in Hpos; lia | discriminate].
  - rewrite Hm. exact Hav.
Qed.

Lemma wave_detected_iff (e : Env) :
  let p := additional_params e in
  wave_detected e = true <->
  terminate_on_wave p = true /\
  average (map (get_speed (k e)) (get_ids (k e))) < wave_termination_speed p /\
  (wave_termination_horizon p < time_counter e)%Z /\
  (0 < length (get_ids (k e)))%nat.
Proof.
  intros p. unfold wave_detected. fold p.
  rewrite !andb_true_iff, Qlt_bool_iff, Z.ltb_lt, Nat.ltb_lt.
  split.
  - intros (((Ht & Hs) & Hh) & Hn).
    rewrite (mean_speed_average e Hn) in Hs. tauto.
  - intros (Ht & Hs & Hh & Hn).
    rewrite <- (mean_speed_average e Hn) in Hs. tauto.
Qed.

Lemma step_done (Info : Type)
  (super_step : Env -> option (list Q) -> Env * StepResult Info)
  (e : Env) (rl_actions : option (list Q)) :
  fst (step super_step e rl_actions) = fst (super_step e rl_actions) /\
  done (snd (step super_step e rl_actions))
  = done (snd (super_step e rl_actions))
    || wave_detected (fst (super_step e rl_actions)).
Proof.
  unfold step. destruct (super_step e rl_actions) as [e' r]. simpl.
  split; [reflexivity|].
  destruct (wave_detected e'), (done r); reflexivity.
Qed.



(** C9.  [SingleStraightRoad.step] never clears the done flag: when the
    base step returns [done = True], so does [step], whatever the wave
    condition. *)
Theorem step_keeps_done (Info : Type)
  (super_step : Env -> option (list Q) -> Env * StepResult Info)
  (e : Env) (rl_actions : option (list Q)) :
  done (snd (super_step e rl_actions)) = true ->
  done (snd (step super_step e rl_actions)) = true.
Proof.
  intros Hbase.
  destruct (step_done Info super_step e rl_actions) as [_ Hdone].
  rewrite Hdone, Hbase. reflexivity.
Qed.

Lemma step_keeps_done_witness :
  wave_detected (fst (example_super_step 3 (env_one 10 10) (Some [1])))
  = false /\
  done (snd (example_super_step 1 (env_one 10 10) (Some [1]))) = true /\
  done (snd (step (example_super_step 1) (env_one 10 10) (Some [1]))) = true.
Proof.
  split; [reflexivity|]. split; [reflexivity|].
  apply (step_keeps_done unit (example_super_step 1) (env_one 10 10)
           (Some [1])).
  reflexivity.
Defined.

(** * Further properties *)

(** ** Vehicle selection: content and ties *)

Lemma rev_sorted_perm (e : Env) :
  Permutation
    (rev (sorted (get_rl_ids (k e)) (fun veh => get_x_by_id (k e) veh)))
    (get_rl_ids (k e)).
Proof.
  eapply perm_trans; [symmetry; apply Permutation_rev | apply sorted_perm].
Qed.

(** X1.  The selection lists live controllable vehicles only, repeats none that
    [get_rl_ids] does not repeat, and holds every one of them when there are
    at most eight. *)
Theorem get_sorted_rl_ids_content (e : Env) :
  (forall v, In v (get_sorted_rl_ids e) -> In v (get_rl_ids (k e))) /\
  (NoDup (get_rl_ids (k e)) -> NoDup (get_sorted_rl_ids e)) /\
  ((length (get_rl_ids (k e)) <= 8)%nat ->
   Permutation (get_sorted_rl_ids e) (get_rl_ids (k e))).
Proof.
  pose proof (rev_sorted_perm e) as Hperm.
  unfold get_sorted_rl_ids.
  set (all := rev (sorted (get_rl_ids (k e))
                     (fun veh => get_x_by_id (k e) veh))) in *.
  pose proof (last_n_split MAX_NUM_VEHS all) as Hsplit.
  split; [|split].
  - intros v Hv. apply (Permutation_in _ Hperm).
    rewrite Hsplit. apply in_or_app. right; exact Hv.
  - intros Hnd.
    apply (Permutation_NoDup (Permutation_sym Hperm)) in Hnd.
    rewrite Hsplit in Hnd. apply NoDup_app_remove_l in Hnd. exact Hnd.
  - intros Hle. unfold last_n.
    rewrite (Permutation_length Hperm).
    replace (length (get_rl_ids (k e)) - MAX_NUM_VEHS)%nat with 0%nat
      by (unfold MAX_NUM_VEHS; lia).
    exact Hperm.
Qed.

Lemma insert_by_filter (key : veh_id -> Q) (c : Q) (a : veh_id)
  (l : list veh_id) :
  let p := fun v => Qeq_bool (key v) c in
  filter p (insert_by key a l)
  = if p a then a :: filter p l else filter p l.
Proof.
  intros p. induction l as [|b l IH]; simpl.
  - destruct (p a); reflexivity.
  - destruct (Qle_bool (key a) (key b)) eqn:Hab; simpl.
    + destruct (p a); reflexivity.
    + rewrite IH.
      destruct (p a) eqn:Hpa; [|reflexivity].
      destruct (p b) eqn:Hpb; [|reflexivity].
      unfold p in Hpa, Hpb.
      apply Qeq_bool_iff in Hpa. apply Qeq_bool_iff in Hpb.
      assert (Hle : key a <= key b) by (rewrite Hpa, Hpb; apply Qle_refl).
      apply Qle_bool_iff in Hle. congruence.
Qed.

(** [sorted] is stable: the vehicles with one key value keep their order. *)
Lemma sorted_stable (key : veh_id -> Q) (c : Q) (l : list veh_id) :
  filter (fun v => Qeq_bool (key v) c) (sorted l key)
  = filter (fun v => Qeq_bool (key v) c) l.
Proof.
  induction l as [|a l IH]; simpl; [reflexivity|].
  rewrite insert_by_filter, IH. reflexivity.
Qed.

(** X2.  Vehicles at one position come out of the selection in the reverse of
    the order [get_rl_ids] lists them in; when vehicles are cut off, those
    cut off at that position are the first of that reversed order. *)
Theorem get_sorted_rl_ids_ties_reversed (e : Env) (c : Q) :
  exists cut,
    rev (filter (at_position e c) (get_rl_ids (k e)))
    = cut ++ filter (at_position e c) (get_sorted_rl_ids e) /\
    ((length (get_rl_ids (k e)) <= 8)%nat -> cut = []).
Proof.
  unfold get_sorted_rl_ids.
  set (all := rev (sorted (get_rl_ids (k e))
                     (fun veh => get_x_by_id (k e) veh))).
  exists (filter (at_position e c) (firstn (length all - MAX_NUM_VEHS) all)).
  split.
  - rewrite <- filter_app. unfold last_n. rewrite firstn_skipn.
    unfold all. rewrite filter_rev. f_equal.
    symmetry. apply (sorted_stable (fun veh => get_x_by_id (k e) veh)).
  - intros Hle.
    replace (length all - MAX_NUM_VEHS)%nat with 0%nat; [reflexivity|].
    unfold all. rewrite (Permutation_length (rev_sorted_perm e)).
    unfold MAX_NUM_VEHS. lia.
Qed.

(** ** Observation: closed form, leaders and errors *)






(** Triples that do not fit the observation space make [get_state]
    raise. *)
Lemma get_state_overflow (e : Env) :
  (observation_space_shape e < 3 * length (get_sorted_rl_ids e))%nat ->
  get_state e = None.
Proof.
  intros Hshort.
  destruct (get_state e) as [v|] eqn:Hv; [|reflexivity].
  exfalso.
  pose proof (get_state_length e v Hv) as Hlen.
  unfold get_state in Hv.
  apply get_state_loop_Some in Hv. destruct Hv as (_ & _ & Hin).
  destruct (get_sorted_rl_ids e) as [|r rest] eqn:Hsel using rev_ind;
    [simpl in Hshort; lia|].
  clear IHrest.
  assert (Hlast : nth_error (rest ++ [r]) (length rest) = Some r).
  { rewrite nth_error_app2 by lia. now rewrite Nat.sub_diag. }
  specialize (Hin (length rest) r 2%nat Hlast ltac:(lia)).
  assert (Hsome : nth_error v (3 * (0 + length rest) + 2) <> None).
  { rewrite Hin. apply nth_error_Some. rewrite vehicle_obs_length. lia. }
  apply nth_error_Some in Hsome.
  rewrite length_app in Hshort. simpl in Hshort, Hsome. lia.
Qed.

(** X4.  [get_state] raises exactly when the triples of the selected vehicles
    do not fit the observation space. *)
Theorem get_state_raises_iff (e : Env) :
  get_state e = None <->
  (observation_space_shape e < 3 * length (get_sorted_rl_ids e))%nat.
Proof.
  split; [|apply get_state_overflow].
  intros Hnone.
  destruct (Nat.le_gt_cases (3 * length (get_sorted_rl_ids e))
              (observation_space_shape e)) as [Hfit | Hgt]; [|exact Hgt].
  destruct (get_state_loop_total e (get_sorted_rl_ids e) 0
              (Np.zeros (observation_space_shape e))) as [v Hv].
  - unfold Np.zeros. rewrite repeat_length. simpl. lia.
  - unfold get_state in Hnone. rewrite Hv in Hnone. discriminate.
Qed.

(** X5.  A [SingleStraightRoad] that is not in lead-observation mode has an
    observation space of 8 entries, and [get_state] raises as soon as three
    controllable vehicles are live. *)
Theorem straight_road_lane_mode_overflows (base : Env) :
  (3 <= length (get_rl_ids (k base)))%nat ->
  observation_space_shape (SingleStraightRoad_init base false) = 8%nat /\
  get_state (SingleStraightRoad_init base false) = None.
Proof.
  intros Hthree. split; [reflexivity|].
  apply get_state_overflow.
  rewrite get_sorted_rl_ids_length.
  change (observation_space_shape (SingleStraightRoad_init base false))
    with 8%nat.
  change (get_rl_ids (k (SingleStraightRoad_init base false)))
    with (get_rl_ids (k base)).
  unfold MAX_NUM_VEHS. lia.
Qed.

Lemma straight_road_lane_mode_overflows_witness :
  (3 <= length (get_rl_ids (k env_ties)))%nat /\
  get_state (SingleStraightRoad_init env_ties false) = None.
Proof.
  split; [vm_compute; lia|].
  apply (proj2 (straight_road_lane_mode_overflows env_ties
                  ltac:(vm_compute; lia))).
Defined.

(** X6.  In the observation [get_state] returns, the triple of a selected
    vehicle whose leader is an identifier holds the vehicle's own speed over
    [SPEED_SCALE], its headway over [HEADWAY_SCALE] and the speed of that
    leader over [SPEED_SCALE]. *)
Theorem get_state_with_leader
  (e : Env) (v : list Q) (i : nat) (rl_id lead : veh_id) :
  get_state e = Some v ->
  nth_error (get_sorted_rl_ids e) i = Some rl_id ->
  get_leader (k e) rl_id = Some lead ->
  lead <> ""%string ->
  nth_error v (3 * i) = Some (get_speed (k e) rl_id / SPEED_SCALE) /\
  nth_error v (3 * i + 1) = Some (get_headway (k e) rl_id / HEADWAY_SCALE) /\
  nth_error v (3 * i + 2) = Some (get_speed (k e) lead / SPEED_SCALE).
Proof.
  intros Hv Hsel Hlead Hne.
  unfold get_state in Hv.
  apply get_state_loop_Some in Hv. destruct Hv as (_ & _ & Hin).
  assert (Hobs : vehicle_obs e rl_id
                 = [get_speed (k e) rl_id / SPEED_SCALE;
                    get_headway (k e) rl_id / HEADWAY_SCALE;
                    get_speed (k e) lead / SPEED_SCALE]).
  { unfold vehicle_obs. rewrite Hlead. simpl.
    apply String.eqb_neq in Hne. rewrite Hne. reflexivity. }
  pose proof (Hin i rl_id 0%nat Hsel ltac:(lia)) as H0.
  pose proof (Hin i rl_id 1%nat Hsel ltac:(lia)) as H1.
  pose proof (Hin i rl_id 2%nat Hsel ltac:(lia)) as H2.
  change (0 + i)%nat with i in H0, H1, H2.
  rewrite Nat.add_0_r in H0.
  rewrite H0, H1, H2, Hobs. repeat split.
Qed.

Lemma get_state_with_leader_witness :
  exists v,
    get_state env_leaders = Some v /\
    nth_error v (3 * 1) = Some (15 / SPEED_SCALE) /\
    nth_error v (3 * 1 + 1) = Some (45 / HEADWAY_SCALE) /\
    nth_error v (3 * 1 + 2) = Some (12 / SPEED_SCALE).
Proof.
  eexists. split; [reflexivity|].
  apply (get_state_with_leader env_leaders _ 1 "rl_1"%string "h_0"%string
           eq_refl eq_refl eq_refl).
  discriminate.
Defined.

(** ** Action application: errors and slots *)

(** Too short an action vector makes [_apply_rl_actions] raise. *)
Lemma _apply_rl_actions_short (e : Env) (rl_actions : list Q) :
  (length rl_actions < length (get_sorted_rl_ids e))%nat ->
  _apply_rl_actions e (Some rl_actions) = None.
Proof.
  intros Hshort. unfold _apply_rl_actions.
  rewrite collect_accels_short by (simpl; lia). reflexivity.
Qed.

(** X7.  [_apply_rl_actions] raises ([IndexError]) exactly when the action
    vector has fewer entries than vehicles are selected; a vector of the
    shape of the action space never raises. *)
Theorem _apply_rl_actions_raises_iff (e : Env) (rl_actions : list Q) :
  (_apply_rl_actions e (Some rl_actions) = None <->
   (length rl_actions < length (get_sorted_rl_ids e))%nat) /\
  ((action_space_shape <= length rl_actions)%nat ->
   _apply_rl_actions e (Some rl_actions) <> None).
Proof.
  assert (Hiff : _apply_rl_actions e (Some rl_actions) = None <->
                 (length rl_actions < length (get_sorted_rl_ids e))%nat).
  { split; [|apply _apply_rl_actions_short].
    intros Hnone.
    destruct (Nat.le_gt_cases (length (get_sorted_rl_ids e))
                (length rl_actions)) as [Hfit | Hshort]; [|exact Hshort].
    rewrite (_apply_rl_actions_Some e rl_actions Hfit) in Hnone.
    discriminate. }
  split; [exact Hiff|].
  intros Hshape Hnone. apply Hiff in Hnone.
  pose proof (get_sorted_rl_ids_le e).
  unfold action_space_shape, MAX_NUM_VEHS in *. simpl in Hshape. lia.
Qed.

(** X8.  Slot [i] of the observation and entry [i] of the action vector belong
    to the same vehicle: the [i]-th selected vehicle's speed opens the
    [i]-th triple of the observation, and the one [apply_acceleration] call
    pairs that vehicle with [rl_actions[i]]. *)
Theorem observation_and_action_slots_agree
  (e e' : Env) (v rl_actions : list Q) (i : nat) :
  get_state e = Some v ->
  _apply_rl_actions e (Some rl_actions) = Some e' ->
  (i < length (get_sorted_rl_ids e))%nat ->
  exists rl_id a veh_ids accels,
    nth_error v (3 * i) = Some (get_speed (k e) rl_id / SPEED_SCALE) /\
    nth_error rl_actions i = Some a /\
    accelerations (k e') = accelerations (k e) ++ [(veh_ids, accels)] /\
    nth_error veh_ids i = Some rl_id /\
    nth_error accels i = Some a.
Proof.
  intros Hv Hrun Hi.
  assert (Hfit : (length (get_sorted_rl_ids e) <= length rl_actions)%nat).
  { destruct (Nat.le_gt_cases (length (get_sorted_rl_ids e))
                (length rl_actions)) as [Hfit | Hshort]; [exact Hfit|].
    apply _apply_rl_actions_short in Hshort. congruence. }
  rewrite (_apply_rl_actions_Some e rl_actions Hfit) in Hrun.
  injection Hrun as <-.
  destruct (nth_error (get_sorted_rl_ids e) i) as [rl_id|] eqn:Hsel;
    [|apply nth_error_None in Hsel; lia].
  destruct (nth_error rl_actions i) as [a|] eqn:Ha;
    [|apply nth_error_None in Ha; lia].
  exists rl_id, a, (get_sorted_rl_ids e),
    (firstn (length (get_sorted_rl_ids e)) rl_actions).
  unfold get_state in Hv.
  apply get_state_loop_Some in Hv. destruct Hv as (_ & _ & Hin).
  pose proof (Hin i rl_id 0%nat Hsel ltac:(lia)) as H0.
  change (0 + i)%nat with i in H0. rewrite Nat.add_0_r in H0.
  split.
  { rewrite H0. unfold vehicle_obs.
    destruct (no_leader (get_leader (k e) rl_id)); reflexivity. }
  split; [reflexivity|]. split; [reflexivity|]. split; [exact Hsel|].
  rewrite nth_error_firstn.
  destruct (Nat.ltb_spec i (length (get_sorted_rl_ids e))); [exact Ha | lia].
Qed.

Lemma observation_and_action_slots_agree_witness :
  exists v e' rl_id a veh_ids accels,
    get_state env_leaders = Some v /\
    _apply_rl_actions env_leaders (Some [1; 0; -1]) = Some e' /\
    nth_error v (3 * 1) = Some (get_speed (k env_leaders) rl_id / SPEED_SCALE)
    /\ nth_error [1; 0; -1] 1 = Some a /\
    accelerations (k e')
    = accelerations (k env_leaders) ++ [(veh_ids, accels)] /\
    nth_error veh_ids 1 = Some rl_id /\
    nth_error accels 1 = Some a.
Proof.
  destruct (observation_and_action_slots_agree env_leaders _ _ [1; 0; -1] 1
              eq_refl eq_refl ltac:(vm_compute; lia))
    as (rl_id & a & veh_ids & accels & H).
  eexists. eexists. exists rl_id, a, veh_ids, accels.
  split; [reflexivity|]. split; [reflexivity|]. exact H.
Defined.

(** ** Reward: range and extremes *)


Lemma closeness_sq_nonneg (d s : Q) : 0 <= closeness_sq d s.
Proof.
  unfold closeness_sq. generalize (d - Qabs (s - d)). intros y. nra.
Qed.






Lemma sum_nonneg (l : list Q) :
  Forall (fun y => 0 <= y) l ->
  0 <= fold_right Qplus 0 l /\
  (fold_right Qplus 0 l == 0 -> Forall (fun y => y == 0) l).
Proof.
  induction 1 as [|y l Hy Hall IH]; cbn [fold_right].
  - split; [lra | constructor].
  - destruct IH as [Hb Hz]. split; [lra|].
    intros Heq. constructor; [lra | apply Hz; lra].
Qed.






(** X11.  With target velocity 0 the reward is never a finite number: it is NaN
    or plus infinity. *)
Theorem compute_reward_zero_target (e : Env) (a : list Q) :
  target_velocity (additional_params e) == 0 ->
  compute_reward e (Some a) = Reward Np.NaN \/
  compute_reward e (Some a) = Reward Np.PosInf.
Proof.
  intros Hd. unfold compute_reward, Np.true_divide.
  set (d := target_velocity (additional_params e)) in *.
  assert (Hsq : Qeq_bool (d ^ 2) 0 = true).
  { apply Qeq_bool_iff. simpl. rewrite Hd. ring. }
  rewrite Hsq.
  set (terms := map (fun speed => (d - Qabs (speed - d)) ^ 2)
                  (map (get_speed (k e)) (get_sorted_rl_ids e))).
  destruct (Qeq_bool (Np.nan_to_num (Np.mean terms)) 0); [left; reflexivity|].
  right.
  assert (Hge : 0 <= Np.nan_to_num (Np.mean terms)).
  { destruct terms as [|t terms'] eqn:Hterms; [simpl; lra|].
    destruct (mean_average (t :: terms')) as (m & Hm & Hav);
      [discriminate|].
    rewrite Hm. simpl Np.nan_to_num. rewrite Hav.
    assert (Hall : Forall (fun y => 0 <= y) (t :: terms')).
    { rewrite <- Hterms. unfold terms.
      apply Forall_map, Forall_forall. intros s _.
      apply (closeness_sq_nonneg d s). }
    apply sum_nonneg in Hall. destruct Hall as [Hsum _].
    pose proof (positive_length (t :: terms') ltac:(discriminate)) as Hn.
    unfold average. apply Qle_shift_div_l; [exact Hn|]. lra. }
  apply Qle_bool_iff in Hge. rewrite Hge. reflexivity.
Qed.

Lemma compute_reward_zero_target_witness :
  compute_reward (env_one 0 5) (Some [1]) = Reward Np.NaN \/
  compute_reward (env_one 0 5) (Some [1]) = Reward Np.PosInf.
Proof.
  apply (compute_reward_zero_target (env_one 0 5) [1]). reflexivity.
Defined.

(** ** Step: what is passed through *)

(** X12.  [SingleStraightRoad.step] hands on the observation, the reward and the
    info of the base step unchanged; and when wave termination is disabled,
    or the step count has not passed the wave horizon, or no vehicle is on
    the road, it returns exactly what the base step returns. *)
Theorem step_passes_base_through (Info : Type)
  (super_step : Env -> option (list Q) -> Env * StepResult Info)
  (e : Env) (rl_actions : option (list Q)) :
  let e' := fst (super_step e rl_actions) in
  let base := snd (super_step e rl_actions) in
  let result := snd (step super_step e rl_actions) in
  obs result = obs base /\
  rew result = rew base /\
  info result = info base /\
  (terminate_on_wave (additional_params e') = false \/
   (time_counter e' <= wave_termination_horizon (additional_params e'))%Z \/
   get_ids (k e') = [] ->
   step super_step e rl_actions = super_step e rl_actions).
Proof.
  unfold step. destruct (super_step e rl_actions) as [e' r]. simpl.
  split; [reflexivity|]. split; [reflexivity|]. split; [reflexivity|].
  intros Hquiet.
  assert (W : wave_detected e' = false).
  { apply not_true_is_false. intros W.
    apply wave_detected_iff in W. destruct W as (Hon & _ & Hlate & Hveh).
    destruct Hquiet as [Hoff | [Hearly | Hempty]].
    - congruence.
    - lia.
    - rewrite Hempty in Hveh. simpl in Hveh. lia. }
  rewrite W. destruct r; reflexivity.
Qed.

Lemma step_passes_base_through_witness :
  step (example_super_step 1000) (example_env slow_vehicles 10 499) None
  = example_super_step 1000 (example_env slow_vehicles 10 499) None.
Proof.
  apply (proj2 (proj2 (proj2
           (step_passes_base_through unit (example_super_step 1000)
              (example_env slow_vehicles 10 499) None)))).
  right. left. vm_compute. discriminate.
Defined.

(** ** Observed vehicles *)

Lemma additional_command_fold (e : Env) (rl_ids : list veh_id) :
  forall observed,
    fold_left
      (fun observed rl_id =>
         let lead_id := get_leader (k e) rl_id in
         if truthy lead_id then observed ++ [the_id lead_id] else observed)
      rl_ids observed
    = observed
      ++ map the_id (filter truthy (map (get_leader (k e)) rl_ids)).
Proof.
  induction rl_ids as [|r rest IH]; intros observed; simpl.
  - now rewrite app_nil_r.
  - rewrite IH. destruct (truthy (get_leader (k e) r)); simpl.
    + now rewrite <- app_assoc.
    + reflexivity.
Qed.

(** X13.  [additional_command] marks as observed exactly the leaders of the live
    controllable vehicles, of all of them and not only of the selected
    eight, skipping a leader that is [None] or [""]; it makes at most one
    call per controllable vehicle. *)
Theorem additional_command_observes_leaders (e : Env) :
  (forall lead,
      In lead (additional_command e) <->
      lead <> ""%string /\
      exists rl_id,
        In rl_id (get_rl_ids (k e)) /\ get_leader (k e) rl_id = Some lead) /\
  (length (additional_command e) <= length (get_rl_ids (k e)))%nat.
Proof.
  unfold additional_command. rewrite additional_command_fold. simpl app.
  split.
  - intros lead. rewrite in_map_iff. split.
    + intros (o & Hid & Hin). apply filter_In in Hin.
      destruct Hin as [Hin Htruthy]. apply in_map_iff in Hin.
      destruct Hin as (rl_id & Hlead & Hrl).
      destruct o as [s|]; [|discriminate]. simpl in Hid, Htruthy. subst s.
      split.
      * apply negb_true_iff in Htruthy. now apply String.eqb_neq.
      * exists rl_id. split; assumption.
    + intros (Hne & rl_id & Hrl & Hlead).
      exists (Some lead). split; [reflexivity|].
      apply filter_In. split.
      * apply in_map_iff. exists rl_id. split; assumption.
      * simpl. apply negb_true_iff. now apply String.eqb_neq.
  - rewrite length_map.
    eapply Nat.le_trans; [apply filter_length_le|].
    now rewrite length_map.
Qed.

(** ** Per-lane state: shape and padding *)

Lemma pad_nth_error (f : Q -> Q) (l : list Q) (c : Q) (d j : nat) :
  (length l <= j < length l + d)%nat ->
  nth_error (map f (l ++ repeat c d)) j = Some (f c).
Proof.
  intros Hj. rewrite nth_error_map, nth_error_app2 by lia.
  rewrite nth_error_repeat by lia. reflexivity.
Qed.

(** With fewer than [MAX_LANES] lanes reported, [state_util] pads each of
    its six blocks to [MAX_LANES] entries. *)
Lemma state_util_padded (e : Env) (veh : LaneKernel) (rl_id : veh_id)
  (n : nat) :
  reports_lanes veh rl_id n ->
  (n < MAX_LANES)%nat ->
  let pad l := l ++ repeat (-1) (MAX_LANES - n) in
  state_util e veh rl_id
  = map (fun x => x / 1000) (pad (get_lane_headways veh rl_id))
    ++ map (fun x => x / 1000) (pad (get_lane_tailways veh rl_id))
    ++ map (fun x => x / 100) (pad (get_lane_leaders_speed veh rl_id))
    ++ map (fun x => x / 100) (pad (get_lane_followers_speed veh rl_id))
    ++ pad (map (rl_flag (get_rl_ids (k e))) (get_lane_leaders veh rl_id))
    ++ pad (map (rl_flag (get_rl_ids (k e))) (get_lane_followers veh rl_id)).
Proof.
  intros (_ & _ & _ & _ & Hlead & _) Hn pad.
  unfold state_util. rewrite length_map, Hlead.
  assert (Hdiff : (0 <? Z.of_nat MAX_LANES - Z.of_nat n)%Z = true)
    by (apply Z.ltb_lt; lia).
  rewrite Hdiff.
  replace (Z.to_nat (Z.of_nat MAX_LANES - Z.of_nat n))
    with (MAX_LANES - n)%nat by lia.
  reflexivity.
Qed.

(** With [MAX_LANES] lanes or more, nothing is padded. *)
Lemma state_util_unpadded (e : Env) (veh : LaneKernel) (rl_id : veh_id)
  (n : nat) :
  reports_lanes veh rl_id n ->
  (MAX_LANES <= n)%nat ->
  state_util e veh rl_id
  = map (fun x => x / 1000) (get_lane_headways veh rl_id)
    ++ map (fun x => x / 1000) (get_lane_tailways veh rl_id)
    ++ map (fun x => x / 100) (get_lane_leaders_speed veh rl_id)
    ++ map (fun x => x / 100) (get_lane_followers_speed veh rl_id)
    ++ map (rl_flag (get_rl_ids (k e))) (get_lane_leaders veh rl_id)
    ++ map (rl_flag (get_rl_ids (k e))) (get_lane_followers veh rl_id).
Proof.
  intros (_ & _ & _ & _ & Hlead & _) Hn.
  unfold state_util. rewrite length_map, Hlead.
  assert (Hdiff : (0 <? Z.of_nat MAX_LANES - Z.of_nat n)%Z = false)
    by (apply Z.ltb_ge; lia).
  rewrite Hdiff. reflexivity.
Qed.

(** X14.  When the kernel reports [n] lanes around a vehicle, [state_util]
    returns six blocks of [max n MAX_LANES] entries; so for up to six lanes
    it returns 36 entries, which together with the two of [veh_statistics]
    are the 38 of the observation space of an [I210SingleEnv] that is not in
    lead-observation mode. *)
Theorem state_util_length (e base : Env) (veh : LaneKernel)
  (rl_id : veh_id) (n : nat) :
  reports_lanes veh rl_id n ->
  length (state_util e veh rl_id) = (6 * Nat.max n MAX_LANES)%nat /\
  ((n <= MAX_LANES)%nat ->
   length (state_util e veh rl_id ++ veh_statistics e veh rl_id)
   = shape (observation_space (I210SingleEnv_init base false))).
Proof.
  intros Hlanes.
  assert (Hlen : length (state_util e veh rl_id)
                 = (6 * Nat.max n MAX_LANES)%nat).
  { destruct (Nat.lt_ge_cases n MAX_LANES) as [Hlt | Hge].
    - rewrite (state_util_padded e veh rl_id n Hlanes Hlt).
      destruct Hlanes as (H1 & H2 & H3 & H4 & H5 & H6).
      repeat (rewrite length_app || rewrite length_map
              || rewrite repeat_length).
      rewrite H1, H2, H3, H4, H5, H6.
      unfold MAX_LANES in *. lia.
    - rewrite (state_util_unpadded e veh rl_id n Hlanes Hge).
      destruct Hlanes as (H1 & H2 & H3 & H4 & H5 & H6).
      repeat (rewrite length_app || rewrite length_map).
      rewrite H1, H2, H3, H4, H5, H6.
      unfold MAX_LANES in *. lia. }
  split; [exact Hlen|].
  intros Hle. rewrite length_app, Hlen.
  change (shape (observation_space (I210SingleEnv_init base false)))
    with 38%nat.
  unfold MAX_LANES in *. simpl length. lia.
Qed.

Lemma state_util_length_witness :
  length (state_util env_leaders two_lanes "rl_0") = 36%nat /\
  length (state_util env_leaders two_lanes "rl_0"
          ++ veh_statistics env_leaders two_lanes "rl_0")
  = shape (observation_space (I210SingleEnv_init env_leaders false)).
Proof.
  destruct (state_util_length env_leaders env_leaders two_lanes "rl_0" 2)
    as [Hlen Hobs].
  - repeat split.
  - split; [exact Hlen|]. apply Hobs. vm_compute. lia.
Defined.

(** X15.  The padding of [state_util] is scaled with the block it pads: a
    missing lane reads -1/1000 in the headway and tailway blocks, -1/100 in
    the two speed blocks, and -1 only in the two flag blocks. *)
Theorem state_util_padding_values (e : Env) (veh : LaneKernel)
  (rl_id : veh_id) (n j : nat) :
  reports_lanes veh rl_id n ->
  (n <= j < MAX_LANES)%nat ->
  let out := state_util e veh rl_id in
  nth_error out j = Some (-1 / 1000) /\
  nth_error out (6 + j) = Some (-1 / 1000) /\
  nth_error out (12 + j) = Some (-1 / 100) /\
  nth_error out (18 + j) = Some (-1 / 100) /\
  nth_error out (24 + j) = Some (-1) /\
  nth_error out (30 + j) = Some (-1).
Proof.
  intros Hlanes Hj out. unfold out.
  rewrite (state_util_padded e veh rl_id n Hlanes ltac:(lia)).
  destruct Hlanes as (H1 & H2 & H3 & H4 & H5 & H6).
  set (d := (MAX_LANES - n)%nat).
  assert (Hd : (n + d = 6)%nat) by (unfold d, MAX_LANES in *; lia).
  set (b1 := map (fun x => x / 1000)
               (get_lane_headways veh rl_id ++ repeat (-1) d)).
  set (b2 := map (fun x => x / 1000)
               (get_lane_tailways veh rl_id ++ repeat (-1) d)).
  set (b3 := map (fun x => x / 100)
               (get_lane_leaders_speed veh rl_id ++ repeat (-1) d)).
  set (b4 := map (fun x => x / 100)
               (get_lane_followers_speed veh rl_id ++ repeat (-1) d)).
  set (b5 := map (rl_flag (get_rl_ids (k e))) (get_lane_leaders veh rl_id)
             ++ repeat (-1) d).
  set (b6 := map (rl_flag (get_rl_ids (k e))) (get_lane_followers veh rl_id)
             ++ repeat (-1) d).
  assert (L1 : length b1 = 6%nat)
    by (unfold b1; rewrite length_map, length_app, repeat_length; lia).
  assert (L2 : length b2 = 6%nat)
    by (unfold b2; rewrite length_map, length_app, repeat_length; lia).
  assert (L3 : length b3 = 6%nat)
    by (unfold b3; rewrite length_map, length_app, repeat_length; lia).
  assert (L4 : length b4 = 6%nat)
    by (unfold b4; rewrite length_map, length_app, repeat_length; lia).
  assert (L5 : length b5 = 6%nat)
    by (unfold b5; rewrite length_app, length_map, repeat_length; lia).
  unfold MAX_LANES in Hj.
  assert (P1 : nth_error b1 j = Some (-1 / 1000))
    by (unfold b1; rewrite pad_nth_error by lia; reflexivity).
  assert (P2 : nth_error b2 j = Some (-1 / 1000))
    by (unfold b2; rewrite pad_nth_error by lia; reflexivity).
  assert (P3 : nth_error b3 j = Some (-1 / 100))
    by (unfold b3; rewrite pad_nth_error by lia; reflexivity).
  assert (P4 : nth_error b4 j = Some (-1 / 100))
    by (unfold b4; rewrite pad_nth_error by lia; reflexivity).
  assert (P5 : nth_error b5 j = Some (-1)).
  { unfold b5. rewrite nth_error_app2 by (rewrite length_map; lia).
    apply nth_error_repeat. rewrite length_map. lia. }
  assert (P6 : nth_error b6 j = Some (-1)).
  { unfold b6. rewrite nth_error_app2 by (rewrite length_map; lia).
    apply nth_error_repeat. rewrite length_map. lia. }
  repeat split.
  - rewrite nth_error_app1 by lia. exact P1.
  - rewrite nth_error_app2 by lia. rewrite nth_error_app1 by lia.
    rewrite <- P2. f_equal. lia.
  - do 2 (rewrite nth_error_app2 by lia). rewrite nth_error_app1 by lia.
    rewrite <- P3. f_equal. lia.
  - do 3 (rewrite nth_error_app2 by lia). rewrite nth_error_app1 by lia.
    rewrite <- P4. f_equal. lia.
  - do 4 (rewrite nth_error_app2 by lia). rewrite nth_error_app1 by lia.
    rewrite <- P5. f_equal. lia.
  - do 5 (rewrite nth_error_app2 by lia).
    rewrite <- P6. f_equal. lia.
Qed.

Lemma state_util_padding_values_witness :
  nth_error (state_util env_leaders two_lanes "rl_0") 2 = Some (-1 / 1000) /\
  nth_error (state_util env_leaders two_lanes "rl_0") (24 + 2) = Some (-1).
Proof.
  destruct (state_util_padding_values env_leaders two_lanes "rl_0" 2 2)
    as (H1 & _ & _ & _ & H5 & _).
  - repeat split.
  - vm_compute. lia.
  - split; [exact H1 | exact H5].
Defined.

(** ** Action space *)


